(** * TypeDesc: a shallow embedding of [OpenImageIO/typedesc.h]

    The descriptor record, its derived size queries, its comparison
    predicates and the type-name parser, with the properties the
    library's specification states about them. *)

From Stdlib Require Import ZArith Bool List String Ascii Lia.
Import ListNotations.
Local Open Scope Z_scope.

(** ** Machine integers

    [size_t] is 32 or 64 bits wide depending on the data model, [int] is
    32 bits, [unsigned long long] is 64 bits and [unsigned char] is 8
    bits.  Unsigned arithmetic wraps around; the wrap is written out as a
    reduction modulo the width. *)

Inductive data_model : Type :=
| ILP32   (* 32-bit int, long, pointer and size_t *)
| LP64.   (* 32-bit int; 64-bit long, pointer and size_t *)

Definition sizeof_int (m : data_model) : Z := 4.

Definition sizeof_size_t (m : data_model) : Z :=
  match m with
  | ILP32 => 4
  | LP64 => 8
  end.

Definition INT_MIN : Z := - 2 ^ 31.
Definition INT_MAX : Z := 2 ^ 31 - 1.
Definition UCHAR_MAX : Z := 255.

(** [std::numeric_limits<size_t>::max()] *)
Definition SIZE_MAX (m : data_model) : Z := 2 ^ (8 * sizeof_size_t m) - 1.

Definition to_uchar (z : Z) : Z := z mod 2 ^ 8.
Definition to_size_t (m : data_model) (z : Z) : Z := z mod 2 ^ (8 * sizeof_size_t m).
Definition to_ulonglong (z : Z) : Z := z mod 2 ^ 64.

(** ** Enumerations

    The enumerators are kept as the integers they denote: the struct
    stores them in [unsigned char] fields and the code compares and
    multiplies them as numbers. *)

Definition BASETYPE : Type := Z.
Definition UNKNOWN : BASETYPE := 0.
Definition NONE : BASETYPE := 1.
Definition UINT8 : BASETYPE := 2.
Definition UCHAR : BASETYPE := UINT8.
Definition INT8 : BASETYPE := 3.
Definition CHAR : BASETYPE := INT8.
Definition UINT16 : BASETYPE := 4.
Definition USHORT : BASETYPE := UINT16.
Definition INT16 : BASETYPE := 5.
Definition SHORT : BASETYPE := INT16.
Definition UINT32 : BASETYPE := 6.
Definition UINT : BASETYPE := UINT32.
Definition INT32 : BASETYPE := 7.
Definition INT : BASETYPE := INT32.
Definition UINT64 : BASETYPE := 8.
Definition ULONGLONG : BASETYPE := UINT64.
Definition INT64 : BASETYPE := 9.
Definition LONGLONG : BASETYPE := INT64.
Definition HALF : BASETYPE := 10.
Definition FLOAT : BASETYPE := 11.
Definition DOUBLE : BASETYPE := 12.
Definition STRING : BASETYPE := 13.
Definition PTR : BASETYPE := 14.
Definition USTRINGHASH : BASETYPE := 15.
Definition LASTBASE : BASETYPE := 16.

Definition AGGREGATE : Type := Z.
Definition SCALAR : AGGREGATE := 1.
Definition VEC2 : AGGREGATE := 2.
Definition VEC3 : AGGREGATE := 3.
Definition VEC4 : AGGREGATE := 4.
Definition MATRIX33 : AGGREGATE := 9.
Definition MATRIX44 : AGGREGATE := 16.

Definition VECSEMANTICS : Type := Z.
Definition NOXFORM : VECSEMANTICS := 0.
Definition NOSEMANTICS : VECSEMANTICS := 0.
Definition COLOR : VECSEMANTICS := 1.
Definition POINT : VECSEMANTICS := 2.
Definition VECTOR : VECSEMANTICS := 3.
Definition NORMAL : VECSEMANTICS := 4.
Definition TIMECODE : VECSEMANTICS := 5.
Definition KEYCODE : VECSEMANTICS := 6.
Definition RATIONAL : VECSEMANTICS := 7.
Definition BOX : VECSEMANTICS := 8.

(** ** The descriptor *)

Record TypeDesc : Type := mkTypeDesc {
  basetype : Z;      (* unsigned char *)
  aggregate : Z;     (* unsigned char *)
  vecsemantics : Z;  (* unsigned char *)
  reserved : Z;      (* unsigned char *)
  arraylen : Z       (* int: 0 = not array, -1 = unsized *)
}.

(** The values the fields of a C++ object can hold. *)
Definition TypeDesc_wf (t : TypeDesc) : Prop :=
  0 <= basetype t <= UCHAR_MAX /\
  0 <= aggregate t <= UCHAR_MAX /\
  0 <= vecsemantics t <= UCHAR_MAX /\
  0 <= reserved t <= UCHAR_MAX /\
  INT_MIN <= arraylen t <= INT_MAX.

(** [TypeDesc (BASETYPE btype=UNKNOWN, AGGREGATE agg=SCALAR,
              VECSEMANTICS semantics=NOSEMANTICS, int arraylen=0)] *)
Definition TypeDesc_ctor (btype : BASETYPE) (agg : AGGREGATE)
    (semantics : VECSEMANTICS) (arraylen : Z) : TypeDesc :=
  {| basetype := to_uchar btype;
     aggregate := to_uchar agg;
     vecsemantics := to_uchar semantics;
     reserved := 0;
     arraylen := arraylen |}.

(** [TypeDesc (BASETYPE btype)], the constructor with its defaults. *)
Definition TypeDesc_of_base (btype : BASETYPE) : TypeDesc :=
  TypeDesc_ctor btype SCALAR NOSEMANTICS 0.

(** [TypeDesc (BASETYPE btype, int arraylen)] *)
Definition TypeDesc_array (btype : BASETYPE) (arraylen : Z) : TypeDesc :=
  TypeDesc_ctor btype SCALAR NOSEMANTICS arraylen.

(** [TypeDesc (BASETYPE btype, AGGREGATE agg, int arraylen)] *)
Definition TypeDesc_agg_array (btype : BASETYPE) (agg : AGGREGATE)
    (arraylen : Z) : TypeDesc :=
  TypeDesc_ctor btype agg NOSEMANTICS arraylen.

(** ** Well-known constants *)

Definition TypeUnknown : TypeDesc := TypeDesc_of_base UNKNOWN.
Definition TypeFloat : TypeDesc := TypeDesc_of_base FLOAT.
Definition TypeColor : TypeDesc := TypeDesc_ctor FLOAT VEC3 COLOR 0.
Definition TypePoint : TypeDesc := TypeDesc_ctor FLOAT VEC3 POINT 0.
Definition TypeVector : TypeDesc := TypeDesc_ctor FLOAT VEC3 VECTOR 0.
Definition TypeNormal : TypeDesc := TypeDesc_ctor FLOAT VEC3 NORMAL 0.
Definition TypeMatrix33 : TypeDesc := TypeDesc_ctor FLOAT MATRIX33 NOSEMANTICS 0.
Definition TypeMatrix44 : TypeDesc := TypeDesc_ctor FLOAT MATRIX44 NOSEMANTICS 0.
Definition TypeMatrix : TypeDesc := TypeMatrix44.
Definition TypeFloat2 : TypeDesc := TypeDesc_ctor FLOAT VEC2 NOSEMANTICS 0.
Definition TypeVector2 : TypeDesc := TypeDesc_ctor FLOAT VEC2 VECTOR 0.
Definition TypeFloat4 : TypeDesc := TypeDesc_ctor FLOAT VEC4 NOSEMANTICS 0.
Definition TypeVector4 : TypeDesc := TypeFloat4.
Definition TypeString : TypeDesc := TypeDesc_of_base STRING.
Definition TypeInt : TypeDesc := TypeDesc_of_base INT.
Definition TypeUInt : TypeDesc := TypeDesc_of_base UINT.
Definition TypeBox2 : TypeDesc := TypeDesc_ctor FLOAT VEC2 BOX 2.
Definition TypeBox3 : TypeDesc := TypeDesc_ctor FLOAT VEC3 BOX 2.
Definition TypeTimeCode : TypeDesc := TypeDesc_ctor UINT SCALAR TIMECODE 2.
Definition TypeKeyCode : TypeDesc := TypeDesc_ctor INT SCALAR KEYCODE 7.
Definition TypeRational : TypeDesc := TypeDesc_ctor INT VEC2 RATIONAL 0.
Definition TypeInt32 : TypeDesc := TypeDesc_of_base INT.
Definition TypeUInt32 : TypeDesc := TypeDesc_of_base UINT.
Definition TypeInt16 : TypeDesc := TypeDesc_of_base INT16.
Definition TypeUInt16 : TypeDesc := TypeDesc_of_base UINT16.
Definition TypeInt8 : TypeDesc := TypeDesc_of_base INT8.
Definition TypeUInt8 : TypeDesc := TypeDesc_of_base UINT8.
Definition TypeInt64 : TypeDesc := TypeDesc_of_base INT64.
Definition TypeUInt64 : TypeDesc := TypeDesc_of_base UINT64.
Definition TypeVector2i : TypeDesc := TypeDesc_ctor INT VEC2 NOSEMANTICS 0.
Definition TypeVector3i : TypeDesc := TypeDesc_ctor INT VEC3 NOSEMANTICS 0.
Definition TypeBox2i : TypeDesc := TypeDesc_ctor INT VEC2 BOX 2.
Definition TypeBox3i : TypeDesc := TypeDesc_ctor INT VEC3 BOX 2.
Definition TypeHalf : TypeDesc := TypeDesc_of_base HALF.
Definition TypePointer : TypeDesc := TypeDesc_of_base PTR.
Definition TypeUstringhash : TypeDesc := TypeDesc_of_base USTRINGHASH.

(** ** Assertions

    A query either returns a value or stops the program at a failed
    assertion. *)

Inductive build_mode : Type := Debug | Release.

Inductive outcome (A : Type) : Type :=
| Returns (a : A)
| AssertionFailure.
Arguments Returns {A} a.
Arguments AssertionFailure {A}.

Definition bind {A B : Type} (x : outcome A) (k : A -> outcome B) : outcome B :=
  match x with
  | Returns a => k a
  | AssertionFailure => AssertionFailure
  end.

Notation "x <- c ;; k" := (bind c (fun x => k))
  (at level 61, c at next level, right associativity).

(** Modelled from the spec: the macro [OIIO_DASSERT_MSG] comes from
    [OpenImageIO/dassert.h], which is not among the sources.  The
    specification describes it as an assertion/fatal check of debug
    builds; a release build evaluates nothing. *)
Definition OIIO_DASSERT_MSG (b : build_mode) (cond : bool) : outcome unit :=
  match b with
  | Debug => if cond then Returns tt else AssertionFailure
  | Release => Returns tt
  end.

(** ** Queries *)

Definition is_array (t : TypeDesc) : bool := negb (arraylen t =? 0).
Definition is_unsized_array (t : TypeDesc) : bool := arraylen t <? 0.
Definition is_sized_array (t : TypeDesc) : bool := arraylen t >? 0.

Section Queries.

Variable m : data_model.
Variable b : build_mode.

(** [size_t basesize () const noexcept] is declared in the header and
    defined elsewhere; the size queries are stated over any such
    function. *)
Variable basesize : TypeDesc -> Z.

(** [size_t numelements () const]: the assertion, then
    [(arraylen >= 1 ? arraylen : 1)] converted to [size_t]. *)
Definition numelements (t : TypeDesc) : outcome Z :=
  _ <- OIIO_DASSERT_MSG b (arraylen t >=? 0) ;;
  Returns (to_size_t m (if arraylen t >=? 1 then arraylen t else 1)).

(** [size_t basevalues () const]: [numelements() * aggregate], a
    multiplication of [size_t]. *)
Definition basevalues (t : TypeDesc) : outcome Z :=
  n <- numelements t ;;
  Returns (to_size_t m (n * aggregate t)).

(** [size_t elementsize () const]: [aggregate * basesize()]. *)
Definition elementsize (t : TypeDesc) : Z :=
  to_size_t m (aggregate t * basesize t).

(** [size_t size () const]: the assertion, the element count [a], and
    the product with the element size, formed directly when [size_t] is
    wider than [int] and in [unsigned long long] with a cut-off at the
    largest [size_t] otherwise. *)
Definition size (t : TypeDesc) : outcome Z :=
  _ <- OIIO_DASSERT_MSG b (arraylen t >=? 0) ;;
  let a := to_size_t m (if arraylen t >? 0 then arraylen t else 1) in
  if sizeof_size_t m >? sizeof_int m then
    (* size_t has plenty of room for this multiplication *)
    Returns (to_size_t m (a * elementsize t))
  else
    (* need overflow protection *)
    let s := to_ulonglong (to_ulonglong a * elementsize t) in
    let toobig := SIZE_MAX m in
    Returns (if s <? toobig then to_size_t m s else toobig).

End Queries.

(** [TypeDesc elementtype () const]: a copy with [arraylen = 0]. *)
Definition elementtype (t : TypeDesc) : TypeDesc :=
  {| basetype := basetype t;
     aggregate := aggregate t;
     vecsemantics := vecsemantics t;
     reserved := reserved t;
     arraylen := 0 |}.

(** [TypeDesc scalartype () const]: [TypeDesc(BASETYPE(basetype))]. *)
Definition scalartype (t : TypeDesc) : TypeDesc :=
  TypeDesc_of_base (basetype t).

(** [void unarray ()]: the new value of [*this]. *)
Definition unarray (t : TypeDesc) : TypeDesc := elementtype t.

Definition is_unknown (t : TypeDesc) : bool := basetype t =? UNKNOWN.

(** [operator bool] *)
Definition to_bool (t : TypeDesc) : bool := negb (basetype t =? UNKNOWN).

(** ** Comparisons *)

(** [operator== (const TypeDesc &t)] *)
Definition TypeDesc_eqb (a t : TypeDesc) : bool :=
  (basetype a =? basetype t) && (aggregate a =? aggregate t) &&
  (vecsemantics a =? vecsemantics t) && (arraylen a =? arraylen t).

(** [operator!= (const TypeDesc &t)] *)
Definition TypeDesc_neqb (a t : TypeDesc) : bool := negb (TypeDesc_eqb a t).

(** [operator== (const TypeDesc &t, BASETYPE b)] *)
Definition eqb_basetype (t : TypeDesc) (b : BASETYPE) : bool :=
  (basetype t =? b) && (aggregate t =? SCALAR) && negb (is_array t).

(** [operator!= (const TypeDesc &t, BASETYPE b)] *)
Definition neqb_basetype (t : TypeDesc) (b : BASETYPE) : bool :=
  negb (basetype t =? b) || negb (aggregate t =? SCALAR) || is_array t.

(** [equivalent (const TypeDesc &a, const TypeDesc &b)] *)
Definition equivalent (a b : TypeDesc) : bool :=
  (basetype a =? basetype b) && (aggregate a =? aggregate b) &&
  ((arraylen a =? arraylen b)
   || (is_unsized_array a && is_sized_array b)
   || (is_sized_array a && is_unsized_array b)).

(** A descriptor with another semantic hint. *)
Definition with_vecsemantics (t : TypeDesc) (s : VECSEMANTICS) : TypeDesc :=
  {| basetype := basetype t;
     aggregate := aggregate t;
     vecsemantics := s;
     reserved := reserved t;
     arraylen := arraylen t |}.

(** The projection to the scalar type as the specification words it:
    the array length cleared, the aggregate made [SCALAR], every other
    field kept.  It is compared with [scalartype] below. *)
Definition strip_array_and_aggregate (t : TypeDesc) : TypeDesc :=
  {| basetype := basetype t;
     aggregate := SCALAR;
     vecsemantics := vecsemantics t;
     reserved := reserved t;
     arraylen := 0 |}.

(** Modelled from the spec: [basesize()] is defined outside the header.
    These are the byte sizes the specification fixes: 1, 2, 4 or 8 for
    the integer and floating kinds of that width and the pointer width
    for the pointer kind; the remaining kinds are given no size here. *)
Definition documented_basesize (m : data_model) (t : TypeDesc) : Z :=
  let k := basetype t in
  if (k =? UINT8) || (k =? INT8) then 1
  else if (k =? UINT16) || (k =? INT16) || (k =? HALF) then 2
  else if (k =? UINT32) || (k =? INT32) || (k =? FLOAT) then 4
  else if (k =? UINT64) || (k =? INT64) || (k =? DOUBLE) then 8
  else if k =? PTR then sizeof_size_t m
  else 0.

(** ** Type names (string to descriptor)

    [fromstring] and the string constructor are declared in the header
    and defined elsewhere.  The parser of this part follows the
    specification of the name syntax: a keyword, optionally followed by
    [[N]] or [[]], with blanks allowed between the tokens (the
    specification lists [uint16[ ]] among the names). *)

Definition is_whitespace (c : ascii) : bool :=
  let n := N_of_ascii c in
  ((n =? 32) || (n =? 9) || (n =? 10) || (n =? 13))%N.

Definition is_digit (c : ascii) : bool :=
  let n := N_of_ascii c in ((48 <=? n) && (n <=? 57))%N.

Definition is_alpha (c : ascii) : bool :=
  let n := N_of_ascii c in
  (((65 <=? n) && (n <=? 90)) || ((97 <=? n) && (n <=? 122)) || (n =? 95))%N.

Definition is_ident_char (c : ascii) : bool := is_alpha c || is_digit c.

Fixpoint skip_whitespace (s : string) : string :=
  match s with
  | String c s' => if is_whitespace c then skip_whitespace s' else s
  | EmptyString => EmptyString
  end.

(** The longest prefix whose characters satisfy [p], and what follows. *)
Fixpoint span (p : ascii -> bool) (s : string) : string * string :=
  match s with
  | String c s' =>
      if p c then let (w, r) := span p s' in (String c w, r)
      else (EmptyString, s)
  | EmptyString => (EmptyString, EmptyString)
  end.

(** The leading word of the input: a letter or underscore followed by
    letters, digits and underscores.  Nothing is consumed when the input
    does not start with one. *)
Definition parse_identifier (s : string) : string * string :=
  match skip_whitespace s with
  | String c _ =>
      if is_alpha c then span is_ident_char (skip_whitespace s)
      else (EmptyString, s)
  | EmptyString => (EmptyString, s)
  end.

Definition parse_char (c : ascii) (s : string) : option string :=
  match skip_whitespace s with
  | String c' r => if Ascii.eqb c' c then Some r else None
  | EmptyString => None
  end.

Definition digit_value (c : ascii) : Z := Z.of_N (N_of_ascii c) - 48.

Fixpoint decimal_value (acc : Z) (digits : string) : Z :=
  match digits with
  | String c r => decimal_value (10 * acc + digit_value c) r
  | EmptyString => acc
  end.

(** A non-negative decimal integer. *)
Definition parse_nat (s : string) : option (Z * string) :=
  match span is_digit (skip_whitespace s) with
  | (EmptyString, _) => None
  | (digits, r) => Some (decimal_value 0 digits, r)
  end.

Inductive brackets : Type :=
| NoBrackets                           (* no [[] follows *)
| ArrayLength (n : Z) (rest : string)  (* [[N]] or [[]] was read *)
| Malformed.                           (* [[] without its [N]] or []] *)

(** Modelled from the spec: an optional trailing [[N]] (a fixed array
    length), a bare [[]] (an unresolved length, -1) or nothing. *)
Definition parse_brackets (s : string) : brackets :=
  match parse_char "[" s with
  | None => NoBrackets
  | Some s1 =>
      match parse_char "]" s1 with
      | Some s2 => ArrayLength (-1) s2
      | None =>
          match parse_nat s1 with
          | Some (n, s2) =>
              match parse_char "]" s2 with
              | Some s3 => ArrayLength n s3
              | None => Malformed
              end
          | None => Malformed
          end
      end
  end.

(** Modelled from the spec: the keywords that stand for a base kind
    together with an aggregate shape and a semantic hint, each expanding
    to the well-known constant of its name. *)
Definition aggregate_keyword (w : string) : option TypeDesc :=
  if String.eqb w "point" then Some TypePoint
  else if String.eqb w "vector" then Some TypeVector
  else if String.eqb w "normal" then Some TypeNormal
  else if String.eqb w "color" then Some TypeColor
  else if String.eqb w "matrix" || String.eqb w "matrix44" then Some TypeMatrix44
  else if String.eqb w "matrix33" then Some TypeMatrix33
  else if String.eqb w "vector2" then Some TypeVector2
  else if String.eqb w "vector4" then Some TypeVector4
  else None.

Inductive parse_error : Type :=
| UnrecognizedKeyword
| MalformedBrackets.

Definition set_arraylen (t : TypeDesc) (n : Z) : TypeDesc :=
  {| basetype := basetype t;
     aggregate := aggregate t;
     vecsemantics := vecsemantics t;
     reserved := reserved t;
     arraylen := n |}.

Section Parsing.

(** The table of base-kind keywords (one entry per base kind and
    alias) is private to the implementation; the parser is stated
    over any such table. *)
Variable basetype_name : string -> option BASETYPE.

Definition lookup_keyword (w : string) : option TypeDesc :=
  match basetype_name w with
  | Some bt => Some (TypeDesc_of_base bt)
  | None => aggregate_keyword w
  end.

(** Modelled from the spec: the descriptor a name denotes and the
    unread rest of the input, or the reason why the name is refused. *)
Definition parse_typename (s : string) : parse_error + TypeDesc * string :=
  let (w, r) := parse_identifier s in
  match lookup_keyword w with
  | None => inl UnrecognizedKeyword
  | Some t =>
      match parse_brackets r with
      | NoBrackets => inr (t, r)
      | ArrayLength n r' => inr (set_arraylen t n, r')
      | Malformed => inl MalformedBrackets
      end
  end.

(** Modelled from the spec: [size_t fromstring (string_view)] is only
    declared in the header.  It yields the new value of [*this] and
    the number of leading characters consumed; on any failure the
    descriptor is left at the unknown state and zero is reported. *)
Definition fromstring (self : TypeDesc) (typestring : string) : TypeDesc * Z :=
  match parse_typename typestring with
  | inl _ => (TypeUnknown, 0)
  | inr (t, r) =>
      (t, Z.of_nat (String.length typestring) - Z.of_nat (String.length r))
  end.

(** Modelled from the spec: [TypeDesc (string_view typestring)] is only
    declared in the header.  It starts from the unknown descriptor and
    reads the name into it. *)
Definition TypeDesc_of_string (typestring : string) : TypeDesc :=
  fst (fromstring TypeUnknown typestring).

(** A name fails to parse when its leading word is no keyword, or
    when the keyword is followed by a bracket expression that is
    not [[N]] or [[]]. *)
Definition parse_fails (typestring : string) : Prop :=
  lookup_keyword (fst (parse_identifier typestring)) = None \/
  parse_brackets (snd (parse_identifier typestring)) = Malformed.

End Parsing.

(** The base-kind keywords that the specification and the header's
    examples spell out. *)
Definition documented_basetype_name (w : string) : option BASETYPE :=
  if String.eqb w "float" then Some FLOAT
  else if String.eqb w "int" || String.eqb w "int32" then Some INT
  else if String.eqb w "uint16" then Some UINT16
  else None.


(** ** Shape predicates

    The base kind is an explicit argument; the source defaults it to
    [FLOAT]. *)

(** [operator== (BASETYPE b, const TypeDesc &t)] *)
Definition basetype_eqb (b : BASETYPE) (t : TypeDesc) : bool :=
  (basetype t =? b) && (aggregate t =? SCALAR) && negb (is_array t).

(** [operator!= (BASETYPE b, const TypeDesc &t)] *)
Definition basetype_neqb (b : BASETYPE) (t : TypeDesc) : bool :=
  negb (basetype t =? b) || negb (aggregate t =? SCALAR) || is_array t.

(** [bool equivalent (const TypeDesc &b) const], the member version. *)
Definition equivalent_member (this b : TypeDesc) : bool :=
  (basetype this =? basetype b) && (aggregate this =? aggregate b) &&
  ((arraylen this =? arraylen b)
   || (is_unsized_array this && is_sized_array b)
   || (is_sized_array this && is_unsized_array b)).

Definition is_vec2 (t : TypeDesc) (b : BASETYPE) : bool :=
  (aggregate t =? VEC2) && (basetype t =? b) && negb (is_array t).

Definition is_vec3 (t : TypeDesc) (b : BASETYPE) : bool :=
  (aggregate t =? VEC3) && (basetype t =? b) && negb (is_array t).

Definition is_vec4 (t : TypeDesc) (b : BASETYPE) : bool :=
  (aggregate t =? VEC4) && (basetype t =? b) && negb (is_array t).

Definition is_box2 (t : TypeDesc) (b : BASETYPE) : bool :=
  (aggregate t =? VEC2) && (basetype t =? b) && (arraylen t =? 2)
  && (vecsemantics t =? BOX).

Definition is_box3 (t : TypeDesc) (b : BASETYPE) : bool :=
  (aggregate t =? VEC3) && (basetype t =? b) && (arraylen t =? 2)
  && (vecsemantics t =? BOX).

(** The constants the header declares after the struct, in its order. *)
Definition well_known_types : list TypeDesc :=
  [ TypeUnknown; TypeFloat; TypeColor; TypePoint; TypeVector; TypeNormal;
    TypeMatrix33; TypeMatrix44; TypeMatrix; TypeFloat2; TypeVector2;
    TypeFloat4; TypeVector4; TypeString; TypeInt; TypeUInt; TypeInt32;
    TypeUInt32; TypeInt16; TypeUInt16; TypeInt8; TypeUInt8; TypeInt64;
    TypeUInt64; TypeVector2i; TypeVector3i; TypeBox2; TypeBox3; TypeBox2i;
    TypeBox3i; TypeHalf; TypeTimeCode; TypeKeyCode; TypeRational;
    TypePointer; TypeUstringhash ].

(** ** The mapping between C types and base kinds

    [BaseTypeFromC<T>] and [CType<b>] are templates with one
    specialisation per line of the header; they are functions on the
    C types those lines name.  A type or base kind without a
    specialisation has no [value] or [type] member: [None]. *)

Inductive ctype : Type :=
| c_unsigned_char
| c_char
| c_unsigned_short
| c_short
| c_unsigned_int
| c_int
| c_unsigned_long_long
| c_long_long
| c_half
| c_float
| c_double
| c_std_string
| c_string_view
| c_ustring
| c_ustringhash
| c_char_array (S : nat)        (* char[S] *)
| c_const_char_array (S : nat)  (* const char[S] *)
| c_pointer (to_const : bool) (pointee : ctype).  (* P* and const P* *)

Definition is_c_char (c : ctype) : bool :=
  match c with
  | c_char => true
  | _ => false
  end.

Section CTypes.

(** Whether the header of [half] was included before this one
    ([_HALF_H_] or [IMATH_HALF_H_] is defined). *)
Variable half_defined : bool.

Definition BaseTypeFromC (T : ctype) : option BASETYPE :=
  match T with
  | c_unsigned_char => Some UINT8
  | c_char => Some INT8
  | c_unsigned_short => Some UINT16
  | c_short => Some INT16
  | c_unsigned_int => Some UINT
  | c_int => Some INT
  | c_unsigned_long_long => Some UINT64
  | c_long_long => Some INT64
  | c_half => if half_defined then Some HALF else None
  | c_float => Some FLOAT
  | c_double => Some DOUBLE
  | c_std_string => Some STRING
  | c_string_view => Some STRING
  | c_ustring => Some STRING
  | c_ustringhash => None
  | c_char_array _ => Some STRING
  | c_const_char_array _ => Some STRING
  | c_pointer _ P => if is_c_char P then Some STRING else Some PTR
  end.

Definition CType (b : BASETYPE) : option ctype :=
  if b =? UINT8 then Some c_unsigned_char
  else if b =? INT8 then Some c_char
  else if b =? UINT16 then Some c_unsigned_short
  else if b =? INT16 then Some c_short
  else if b =? UINT then Some c_unsigned_int
  else if b =? INT then Some c_int
  else if b =? UINT64 then Some c_unsigned_long_long
  else if b =? INT64 then Some c_long_long
  else if b =? HALF then (if half_defined then Some c_half else None)
  else if b =? FLOAT then Some c_float
  else if b =? DOUBLE then Some c_double
  else if b =? USTRINGHASH then Some c_ustringhash
  else None.

(** [TypeDescFromC<T>::value()] of the primary template:
    [TypeDesc(BaseTypeFromC<T>::value)]. *)
Definition TypeDescFromC_default (T : ctype) : option TypeDesc :=
  option_map TypeDesc_of_base (BaseTypeFromC T).

End CTypes.

(** ** The format-specification parser of [formatter<TypeDesc>]

    [parse] walks the range [[begin, end)] of the format context; the
    iterator it returns is kept as its distance from [begin]. *)

Inductive parse_outcome : Type :=
| ParsedUpTo (it : nat)
| Throws_format_error.

Definition formatter_parse (ctx : string) : parse_outcome :=
  (* step over a leading s *)
  let it := match ctx with
            | String c _ => if Ascii.eqb c "s" then 1%nat else 0%nat
            | EmptyString => 0%nat
            end in
  (* anything but the end or a closing brace is refused *)
  match String.get it ctx with
  | Some c => if Ascii.eqb c "}" then ParsedUpTo it else Throws_format_error
  | None => ParsedUpTo it
  end.

(** * Properties *)

(** ** Conversions that do not wrap *)

Lemma SIZE_MAX_ILP32 : SIZE_MAX ILP32 = 4294967295.
Proof. reflexivity. Qed.

Lemma SIZE_MAX_LP64 : SIZE_MAX LP64 = 18446744073709551615.
Proof. reflexivity. Qed.

Lemma to_size_t_small (m : data_model) (z : Z) :
  0 <= z <= SIZE_MAX m -> to_size_t m z = z.
Proof.
  intros Hz. unfold to_size_t. apply Z.mod_small.
  unfold SIZE_MAX in Hz. lia.
Qed.

Lemma to_ulonglong_small (z : Z) :
  0 <= z < 18446744073709551616 -> to_ulonglong z = z.
Proof.
  intros Hz. unfold to_ulonglong. apply Z.mod_small.
  change (2 ^ 64) with 18446744073709551616. exact Hz.
Qed.

Lemma to_uchar_small (z : Z) : 0 <= z <= UCHAR_MAX -> to_uchar z = z.
Proof.
  intros Hz. unfold to_uchar. apply Z.mod_small.
  unfold UCHAR_MAX in Hz. change (2 ^ 8) with 256. lia.
Qed.

Lemma SIZE_MAX_lower (m : data_model) : 4294967295 <= SIZE_MAX m.
Proof. destruct m; [rewrite SIZE_MAX_ILP32 | rewrite SIZE_MAX_LP64]; lia. Qed.

(** The element count read off [arraylen], as [numelements] and [size]
    both compute it. *)
Lemma count_of_arraylen (t : TypeDesc) :
  0 <= arraylen t ->
  (if arraylen t >=? 1 then arraylen t else 1) = Z.max (arraylen t) 1 /\
  (if arraylen t >? 0 then arraylen t else 1) = Z.max (arraylen t) 1.
Proof.
  intros H. split.
  - destruct (Z.geb_spec (arraylen t) 1); lia.
  - destruct (Z.gtb_spec (arraylen t) 0); lia.
Qed.

Lemma assertion_passes (b : build_mode) (t : TypeDesc) :
  0 <= arraylen t -> OIIO_DASSERT_MSG b (arraylen t >=? 0) = Returns tt.
Proof.
  intros H. destruct (Z.geb_spec (arraylen t) 0); [| lia].
  destruct b; reflexivity.
Qed.


Lemma numelements_returns (m : data_model) (b : build_mode) (t : TypeDesc) :
  TypeDesc_wf t -> 0 <= arraylen t ->
  numelements m b t = Returns (Z.max (arraylen t) 1).
Proof.
  intros (_ & _ & _ & _ & Hlen) Hnn. unfold numelements.
  rewrite assertion_passes by assumption. cbn [bind].
  destruct (count_of_arraylen t Hnn) as [-> _].
  rewrite to_size_t_small; [reflexivity |].
  pose proof (SIZE_MAX_lower m). unfold INT_MAX in Hlen.
  change (2 ^ 31) with 2147483648 in Hlen. lia.
Qed.

(** With a base size below 2^24 bytes the element size cannot wrap. *)
Lemma elementsize_exact (m : data_model) (basesize : TypeDesc -> Z) (t : TypeDesc) :
  (forall u, 0 <= basesize u < 2 ^ 24) ->
  TypeDesc_wf t ->
  elementsize m basesize t = aggregate t * basesize t /\
  0 <= aggregate t * basesize t <= 4278189825.
Proof.
  intros Hbs (_ & Hagg & _). specialize (Hbs t).
  unfold UCHAR_MAX in Hagg. change (2 ^ 24) with 16777216 in Hbs.
  assert (Hrange : 0 <= aggregate t * basesize t <= 4278189825) by nia.
  split; [| exact Hrange].
  unfold elementsize. apply to_size_t_small.
  pose proof (SIZE_MAX_lower m). lia.
Qed.

(** ** Byte size *)

(** [size()] is the product of element count and element size, cut off
    at the largest [size_t]. *)
Lemma size_returns (m : data_model) (b : build_mode)
    (basesize : TypeDesc -> Z) (t : TypeDesc) :
  (forall u, 0 <= basesize u < 2 ^ 24) ->
  TypeDesc_wf t ->
  0 <= arraylen t ->
  size m b basesize t =
  Returns (Z.min (Z.max (arraylen t) 1 * (aggregate t * basesize t))
                 (SIZE_MAX m)).
Proof.
  intros Hbs Hwf Hnn.
  destruct (elementsize_exact m basesize t Hbs Hwf) as [Hes Hrange].
  destruct Hwf as (_ & _ & _ & _ & Hlen).
  unfold INT_MAX in Hlen. change (2 ^ 31) with 2147483648 in Hlen.
  unfold size. rewrite assertion_passes by assumption. cbn [bind].
  destruct (count_of_arraylen t Hnn) as [_ ->].
  rewrite Hes.
  set (n := Z.max (arraylen t) 1) in *.
  assert (Hn : 1 <= n <= 2147483647) by (subst n; lia).
  rewrite (to_size_t_small m n)
    by (pose proof (SIZE_MAX_lower m); lia).
  set (e := aggregate t * basesize t) in *.
  assert (Hprod : 0 <= n * e <= 9187343235994910975) by nia.
  destruct m; cbn [sizeof_size_t sizeof_int Z.gtb Z.compare Pos.compare
                   Pos.compare_cont].
  - (* 32-bit size_t: the product is formed in unsigned long long *)
    rewrite (to_ulonglong_small n) by lia.
    rewrite (to_ulonglong_small (n * e)) by lia.
    rewrite SIZE_MAX_ILP32. f_equal.
    destruct (Z.ltb_spec (n * e) 4294967295) as [Hlt | Hge].
    + rewrite to_size_t_small by (rewrite SIZE_MAX_ILP32; lia). lia.
    + lia.
  - (* 64-bit size_t: the product always fits *)
    rewrite SIZE_MAX_LP64. f_equal.
    rewrite to_size_t_small by (rewrite SIZE_MAX_LP64; lia). lia.
Qed.

(** C1: for a descriptor with non-negative [arraylen], [size()] is the
    product of [numelements()], the aggregate arity and [basesize()];
    when that product exceeds the largest [size_t], [size()] is that
    largest value instead of a wrapped one.  (The base size is any
    function below 2^24 bytes, so that one element cannot overflow.) *)
Theorem size_is_saturating_product :
  forall (m : data_model) (b : build_mode) (basesize : TypeDesc -> Z)
         (t : TypeDesc),
    (forall u, 0 <= basesize u < 2 ^ 24) ->
    TypeDesc_wf t ->
    0 <= arraylen t ->
    exists n : Z,
      numelements m b t = Returns n /\
      (n * aggregate t * basesize t <= SIZE_MAX m ->
       size m b basesize t = Returns (n * aggregate t * basesize t)) /\
      (SIZE_MAX m < n * aggregate t * basesize t ->
       size m b basesize t = Returns (SIZE_MAX m)).
Proof.
  intros m b basesize t Hbs Hwf Hnn.
  exists (Z.max (arraylen t) 1).
  split; [apply numelements_returns; assumption |].
  rewrite (size_returns m b basesize t Hbs Hwf Hnn), <- Z.mul_assoc.
  split; intros Hcmp; f_equal; lia.
Qed.

(** ** Element counts and the assertion *)




(** ** Equality and equivalence *)

Lemma TypeDesc_eqb_spec (a b : TypeDesc) :
  TypeDesc_eqb a b = true <->
  basetype a = basetype b /\ aggregate a = aggregate b /\
  vecsemantics a = vecsemantics b /\ arraylen a = arraylen b.
Proof.
  unfold TypeDesc_eqb.
  rewrite !andb_true_iff, !Z.eqb_eq. tauto.
Qed.

Lemma equivalent_spec (a b : TypeDesc) :
  equivalent a b = true <->
  basetype a = basetype b /\ aggregate a = aggregate b /\
  (arraylen a = arraylen b \/
   (arraylen a < 0 /\ 0 < arraylen b) \/
   (0 < arraylen a /\ arraylen b < 0)).
Proof.
  unfold equivalent, is_unsized_array, is_sized_array.
  rewrite !andb_true_iff, !orb_true_iff, !andb_true_iff,
    !Z.eqb_eq, !Z.ltb_lt, !Z.gtb_lt.
  tauto.
Qed.

Lemma equivalent_sym (a b : TypeDesc) : equivalent a b = equivalent b a.
Proof.
  apply eq_true_iff_eq. rewrite !equivalent_spec.
  intuition congruence.
Qed.

Lemma equivalent_false_iff (a b : TypeDesc) :
  equivalent a b = false <-> ~ (equivalent a b = true).
Proof. destruct (equivalent a b); split; congruence. Qed.

(** C2: [equivalent(a, b)] holds exactly when the base kinds and the
    aggregate shapes agree and the array lengths are equal or one is
    negative (unresolved) while the other is positive (fixed); the
    semantic hints of [a] and [b] play no part. *)
Theorem equivalent_characterisation :
  forall a b : TypeDesc,
    (equivalent a b = true <->
     basetype a = basetype b /\ aggregate a = aggregate b /\
     (arraylen a = arraylen b \/
      (arraylen a < 0 /\ 0 < arraylen b) \/
      (0 < arraylen a /\ arraylen b < 0))) /\
    (forall sa sb : VECSEMANTICS,
       equivalent (with_vecsemantics a sa) (with_vecsemantics b sb) =
       equivalent a b).
Proof.
  intros a b. split.
  - apply equivalent_spec.
  - intros sa sb. reflexivity.
Qed.

(** C3: equivalence is symmetric, equal descriptors are equivalent, and
    a sized array and the unsized array of the same base kind, shape and
    hint are equivalent without being equal. *)
Theorem equivalent_symmetric_and_coarser_than_equality :
  (forall a b : TypeDesc, equivalent a b = equivalent b a) /\
  (forall a b : TypeDesc, TypeDesc_eqb a b = true -> equivalent a b = true) /\
  (exists a b : TypeDesc,
     basetype a = basetype b /\ aggregate a = aggregate b /\
     vecsemantics a = vecsemantics b /\
     is_sized_array a = true /\ is_unsized_array b = true /\
     equivalent a b = true /\ TypeDesc_eqb a b = false).
Proof.
  split; [exact equivalent_sym |]. split.
  - intros a b Heq. apply TypeDesc_eqb_spec in Heq.
    apply equivalent_spec. intuition.
  - exists (TypeDesc_array FLOAT 3), (TypeDesc_array FLOAT (-1)).
    repeat split.
Qed.

(** C7: a descriptor equals a bare base kind [b] exactly when its base
    kind is [b], its aggregate is [SCALAR] and it is not an array. *)
Theorem eqb_basetype_characterisation :
  forall (t : TypeDesc) (b : BASETYPE),
    eqb_basetype t b = true <->
    basetype t = b /\ aggregate t = SCALAR /\ arraylen t = 0.
Proof.
  intros t b. unfold eqb_basetype, is_array.
  rewrite !andb_true_iff, negb_true_iff, negb_false_iff, !Z.eqb_eq.
  tauto.
Qed.

(** C10: two sized arrays of different lengths are each equivalent to
    the unsized array of their base kind and shape but not to each
    other, so equivalence is not transitive; and an unsized array is
    never equivalent to a non-array. *)
Theorem equivalent_not_transitive :
  (forall a b c : TypeDesc,
     basetype a = basetype b -> basetype b = basetype c ->
     aggregate a = aggregate b -> aggregate b = aggregate c ->
     0 < arraylen a -> arraylen b < 0 -> 0 < arraylen c ->
     arraylen a <> arraylen c ->
     equivalent a b = true /\ equivalent b c = true /\
     equivalent a c = false) /\
  (exists a b c : TypeDesc,
     equivalent a b = true /\ equivalent b c = true /\
     equivalent a c = false) /\
  (forall a b : TypeDesc,
     is_unsized_array a = true -> arraylen b = 0 ->
     equivalent a b = false /\ equivalent b a = false).
Proof.
  split; [| split].
  - intros a b c Hab Hbc Gab Gbc Ha Hb Hc Hne.
    rewrite equivalent_false_iff, !equivalent_spec.
    split; [| split].
    + split; [assumption | split; [assumption | lia]].
    + split; [assumption | split; [assumption | lia]].
    + intros (_ & _ & H). lia.
  - exists (TypeDesc_array FLOAT 2), (TypeDesc_array FLOAT (-1)),
      (TypeDesc_array FLOAT 3).
    repeat split.
  - intros a b Ha Hb. unfold is_unsized_array in Ha.
    apply Z.ltb_lt in Ha.
    rewrite !equivalent_false_iff, !equivalent_spec.
    split; intros (_ & _ & H); lia.
Qed.

(** ** Projections *)

(** C8 (as amended): [elementtype] clears the array length and keeps
    every other field; [scalartype] keeps the base kind only: the array
    length is cleared, the aggregate becomes [SCALAR] and the semantic
    hint is reset to [NOSEMANTICS] (the reserved byte to 0).  Both are
    total functions. *)
Theorem elementtype_scalartype_fields :
  forall t : TypeDesc,
    TypeDesc_wf t ->
    elementtype t =
      {| basetype := basetype t;
         aggregate := aggregate t;
         vecsemantics := vecsemantics t;
         reserved := reserved t;
         arraylen := 0 |} /\
    scalartype t =
      {| basetype := basetype t;
         aggregate := SCALAR;
         vecsemantics := NOSEMANTICS;
         reserved := 0;
         arraylen := 0 |}.
Proof.
  intros t (Hbase & _). split; [reflexivity |].
  unfold scalartype, TypeDesc_of_base, TypeDesc_ctor.
  rewrite (to_uchar_small (basetype t)) by assumption.
  reflexivity.
Qed.

(** C8, the claim as stated fails: [scalartype] does not keep the
    semantic hint.  The colour descriptor carries [COLOR]; its scalar
    type carries [NOSEMANTICS] and so differs, also under [operator==],
    from the descriptor with only array length and aggregate stripped. *)
Lemma scalartype_resets_semantics :
  TypeDesc_wf TypeColor /\
  vecsemantics TypeColor = COLOR /\
  vecsemantics (scalartype TypeColor) = NOSEMANTICS /\
  scalartype TypeColor <> strip_array_and_aggregate TypeColor /\
  TypeDesc_eqb (scalartype TypeColor) (strip_array_and_aggregate TypeColor)
    = false.
Proof.
  split; [unfold TypeDesc_wf, UCHAR_MAX, INT_MIN, INT_MAX; cbn; lia |].
  repeat split. intros H. discriminate H.
Qed.

(** ** Parsing type names *)

Section ParsingFacts.

Variable basetype_name : string -> option BASETYPE.

(** [parse_fails] is exactly the set of inputs on which the parser
    stops with an error. *)
Lemma parse_typename_error_iff (s : string) :
  (exists e, parse_typename basetype_name s = inl e) <->
  parse_fails basetype_name s.
Proof.
  unfold parse_fails, parse_typename.
  destruct (parse_identifier s) as [w r]. cbn [fst snd].
  destruct (lookup_keyword basetype_name w) as [t |].
  - destruct (parse_brackets r); split.
    + intros [e He]. discriminate He.
    + intros [H | H]; discriminate H.
    + intros [e He]. discriminate He.
    + intros [H | H]; discriminate H.
    + intros _. right. reflexivity.
    + intros _. exists MalformedBrackets. reflexivity.
  - split.
    + intros _. left. reflexivity.
    + intros _. exists UnrecognizedKeyword. reflexivity.
Qed.

Lemma fromstring_of_error (self : TypeDesc) (s : string) (e : parse_error) :
  parse_typename basetype_name s = inl e ->
  fromstring basetype_name self s = (TypeUnknown, 0).
Proof. intros H. unfold fromstring. rewrite H. reflexivity. Qed.

(** A name that parses leaves a suffix of the input unread, so the
    count of consumed characters is never negative. *)
Lemma skip_whitespace_length (s : string) :
  (String.length (skip_whitespace s) <= String.length s)%nat.
Proof.
  induction s as [| c s IH]; cbn; [lia |].
  destruct (is_whitespace c); cbn; lia.
Qed.

Lemma span_length (p : ascii -> bool) (s : string) :
  (String.length (fst (span p s)) + String.length (snd (span p s))
   = String.length s)%nat.
Proof.
  induction s as [| c s IH]; cbn; [reflexivity |].
  destruct (p c); cbn; [| reflexivity].
  destruct (span p s) as [w r]. cbn in *. lia.
Qed.

End ParsingFacts.

(** C6: on every input whose leading word is no keyword, or whose
    keyword is followed by a malformed bracket expression, [fromstring]
    reports zero consumed characters and yields the unknown descriptor,
    whatever the descriptor held before; the string constructor yields
    the unknown descriptor too.  Both are total functions: there is no
    other outcome. *)
Theorem fromstring_failure_is_unknown_and_zero :
  forall (basetype_name : string -> option BASETYPE) (self : TypeDesc)
         (typestring : string),
    parse_fails basetype_name typestring ->
    fromstring basetype_name self typestring = (TypeUnknown, 0) /\
    TypeDesc_of_string basetype_name typestring = TypeUnknown /\
    is_unknown (fst (fromstring basetype_name self typestring)) = true.
Proof.
  intros basetype_name self typestring Hfail.
  apply parse_typename_error_iff in Hfail. destruct Hfail as [e He].
  unfold TypeDesc_of_string.
  rewrite !(fromstring_of_error basetype_name _ typestring e He).
  repeat split.
Qed.

(** ** The count of consumed characters

    A name that parses consumes at least its keyword, so a count of
    zero is reported on failure only (provided the empty word is not a
    keyword of the table). *)

Lemma parse_identifier_length (s : string) :
  (String.length (fst (parse_identifier s)) +
   String.length (snd (parse_identifier s)) <= String.length s)%nat.
Proof.
  unfold parse_identifier.
  pose proof (skip_whitespace_length s) as Hskip.
  pose proof (span_length is_ident_char (skip_whitespace s)) as Hspan.
  destruct (skip_whitespace s) as [| c s'] eqn:E; cbn [fst snd String.length].
  - lia.
  - destruct (is_alpha c); cbn [fst snd String.length] in *; lia.
Qed.

Lemma parse_char_length (c : ascii) (s r : string) :
  parse_char c s = Some r -> (String.length r < String.length s)%nat.
Proof.
  unfold parse_char. pose proof (skip_whitespace_length s) as Hskip.
  destruct (skip_whitespace s) as [| c' s']; [discriminate |].
  destruct (Ascii.eqb c' c); [| discriminate].
  intros H. injection H as <-. cbn in Hskip. lia.
Qed.

Lemma parse_nat_length (s r : string) (n : Z) :
  parse_nat s = Some (n, r) -> (String.length r <= String.length s)%nat.
Proof.
  unfold parse_nat. pose proof (skip_whitespace_length s) as Hskip.
  pose proof (span_length is_digit (skip_whitespace s)) as Hspan.
  destruct (span is_digit (skip_whitespace s)) as [[| d ds] r'];
    [discriminate |].
  intros H. injection H as _ <-. cbn [fst snd] in Hspan. lia.
Qed.

Lemma parse_brackets_length (s r : string) (n : Z) :
  parse_brackets s = ArrayLength n r ->
  (String.length r < String.length s)%nat.
Proof.
  unfold parse_brackets.
  destruct (parse_char "[" s) as [s1 |] eqn:E1; [| discriminate].
  apply parse_char_length in E1.
  destruct (parse_char "]" s1) as [s2 |] eqn:E2.
  - apply parse_char_length in E2. intros H. injection H as _ <-. lia.
  - destruct (parse_nat s1) as [[k s2] |] eqn:E3; [| discriminate].
    apply parse_nat_length in E3.
    destruct (parse_char "]" s2) as [s3 |] eqn:E4; [| discriminate].
    apply parse_char_length in E4. intros H. injection H as _ <-. lia.
Qed.

Lemma aggregate_keyword_nonempty : aggregate_keyword EmptyString = None.
Proof. reflexivity. Qed.

Lemma fromstring_success_consumes
    (basetype_name : string -> option BASETYPE) (self : TypeDesc)
    (s : string) :
  basetype_name EmptyString = None ->
  ~ parse_fails basetype_name s ->
  0 < snd (fromstring basetype_name self s) <= Z.of_nat (String.length s).
Proof.
  intros Hempty Hok.
  assert (Hnone : forall e, parse_typename basetype_name s <> inl e).
  { intros e He. apply Hok, parse_typename_error_iff. exists e. exact He. }
  unfold fromstring. unfold parse_typename in *.
  pose proof (parse_identifier_length s) as Hid.
  destruct (parse_identifier s) as [w r]. cbn [fst snd] in Hid.
  destruct (lookup_keyword basetype_name w) as [t |] eqn:Ekw;
    [| exfalso; exact (Hnone _ eq_refl)].
  assert (Hw : (1 <= String.length w)%nat).
  { destruct w; [| cbn; lia].
    unfold lookup_keyword in Ekw. rewrite Hempty in Ekw.
    rewrite aggregate_keyword_nonempty in Ekw. discriminate Ekw. }
  destruct (parse_brackets r) as [| n r' |] eqn:Ebr; cbn [snd].
  - lia.
  - apply parse_brackets_length in Ebr. lia.
  - exfalso. exact (Hnone _ eq_refl).
Qed.

(** ** Further facts *)

(** With a 64-bit [size_t] the size never saturates: it is the exact
    product. *)
Theorem size_exact_with_64_bit_size_t :
  forall (b : build_mode) (basesize : TypeDesc -> Z) (t : TypeDesc),
    (forall u, 0 <= basesize u < 2 ^ 24) ->
    TypeDesc_wf t ->
    0 <= arraylen t ->
    size LP64 b basesize t =
    Returns (Z.max (arraylen t) 1 * aggregate t * basesize t) /\
    Z.max (arraylen t) 1 * aggregate t * basesize t < SIZE_MAX LP64.
Proof.
  intros b basesize t Hbs Hwf Hnn.
  rewrite (size_returns LP64 b basesize t Hbs Hwf Hnn), <- Z.mul_assoc.
  destruct (elementsize_exact LP64 basesize t Hbs Hwf) as [_ Hrange].
  destruct Hwf as (_ & _ & _ & _ & Hlen).
  unfold INT_MAX in Hlen. change (2 ^ 31) with 2147483648 in Hlen.
  rewrite SIZE_MAX_LP64.
  assert (0 <= Z.max (arraylen t) 1 * (aggregate t * basesize t)
          <= 9187343235994910975) by nia.
  split; [f_equal |]; lia.
Qed.

(** [operator==] between descriptors is an equivalence relation that
    does not look at the reserved byte, and it refines [equivalent],
    which is reflexive. *)
Theorem TypeDesc_eqb_equivalence :
  (forall a : TypeDesc, TypeDesc_eqb a a = true) /\
  (forall a b : TypeDesc, TypeDesc_eqb a b = TypeDesc_eqb b a) /\
  (forall a b c : TypeDesc,
     TypeDesc_eqb a b = true -> TypeDesc_eqb b c = true ->
     TypeDesc_eqb a c = true) /\
  (forall (a : TypeDesc) (r : Z),
     TypeDesc_eqb a
       {| basetype := basetype a; aggregate := aggregate a;
          vecsemantics := vecsemantics a; reserved := r;
          arraylen := arraylen a |} = true) /\
  (forall a : TypeDesc, equivalent a a = true).
Proof.
  repeat split.
  - intros a. apply TypeDesc_eqb_spec. tauto.
  - intros a b. apply eq_true_iff_eq. rewrite !TypeDesc_eqb_spec.
    intuition congruence.
  - intros a b c. rewrite !TypeDesc_eqb_spec. intuition congruence.
  - intros a r. apply TypeDesc_eqb_spec. cbn. tauto.
  - intros a. apply equivalent_spec. tauto.
Qed.

(** [operator!=] against a bare base kind is the negation of
    [operator==] against it. *)
Theorem neqb_basetype_negates_eqb_basetype :
  forall (t : TypeDesc) (b : BASETYPE),
    neqb_basetype t b = negb (eqb_basetype t b).
Proof.
  intros t b. unfold neqb_basetype, eqb_basetype.
  rewrite !negb_andb, negb_involutive. reflexivity.
Qed.

(** The array predicates partition the descriptors: a descriptor is an
    array exactly when it is a sized or an unsized one, and never both. *)
Theorem is_array_sized_or_unsized :
  forall t : TypeDesc,
    is_array t = is_sized_array t || is_unsized_array t /\
    is_sized_array t && is_unsized_array t = false.
Proof.
  intros t. unfold is_array, is_sized_array, is_unsized_array.
  destruct (Z.eqb_spec (arraylen t) 0), (Z.gtb_spec (arraylen t) 0),
    (Z.ltb_spec (arraylen t) 0); cbn; split; try reflexivity; lia.
Qed.

(** ** Worked inputs *)

Lemma documented_basesize_bound (m : data_model) (u : TypeDesc) :
  0 <= documented_basesize m u < 2 ^ 24.
Proof.
  unfold documented_basesize. change (2 ^ 24) with 16777216.
  repeat match goal with
         | |- context [if ?c then _ else _] => destruct c
         end; destruct m; cbn; lia.
Qed.

Ltac wf_by_computation :=
  unfold TypeDesc_wf, UCHAR_MAX, INT_MIN, INT_MAX; cbn; lia.

(** Reading [float[3]] gives an array of three floats, twelve bytes. *)
Example size_of_float_3 :
  fromstring documented_basetype_name TypeUnknown "float[3]"
    = (TypeDesc_array FLOAT 3, 8) /\
  size LP64 Debug (documented_basesize LP64) (TypeDesc_array FLOAT 3)
    = Returns 12.
Proof. split; reflexivity. Qed.

(** Reading [point] gives the point constant. *)
Example fromstring_point :
  fromstring documented_basetype_name TypeUnknown "point" = (TypePoint, 5).
Proof. reflexivity. Qed.

(** Reading [int[]] gives an unsized array, whose size a debug build
    refuses to compute. *)
Example size_of_unsized_int :
  fromstring documented_basetype_name TypeUnknown "int[]"
    = (TypeDesc_array INT (-1), 5) /\
  size LP64 Debug (documented_basesize LP64) (TypeDesc_array INT (-1))
    = AssertionFailure.
Proof. split; reflexivity. Qed.

(** C1, at concrete inputs: on a 32-bit [size_t] the largest array of
    double 4x4 matrices saturates; on a 64-bit one it does not. *)
Lemma size_is_saturating_product_witness :
  size ILP32 Release (documented_basesize ILP32)
       (TypeDesc_agg_array DOUBLE MATRIX44 2147483647)
    = Returns 4294967295 /\
  size LP64 Release (documented_basesize LP64)
       (TypeDesc_agg_array DOUBLE MATRIX44 2147483647)
    = Returns 274877906816.
Proof.
  split.
  - destruct (size_is_saturating_product ILP32 Release
                (documented_basesize ILP32)
                (TypeDesc_agg_array DOUBLE MATRIX44 2147483647))
      as (n & Hn & _ & Hsat).
    + exact (documented_basesize_bound ILP32).
    + wf_by_computation.
    + cbn. lia.
    + injection Hn as <-. apply Hsat. reflexivity.
  - destruct (size_is_saturating_product LP64 Release
                (documented_basesize LP64)
                (TypeDesc_agg_array DOUBLE MATRIX44 2147483647))
      as (n & Hn & Hfits & _).
    + exact (documented_basesize_bound LP64).
    + wf_by_computation.
    + cbn. lia.
    + injection Hn as <-. apply Hfits. intros H. discriminate H.
Defined.


(** C3, at concrete inputs: the point constant equals itself and is
    therefore equivalent to itself. *)
Lemma equivalent_symmetric_and_coarser_than_equality_witness :
  TypeDesc_eqb TypePoint TypePoint = true /\
  equivalent TypePoint TypePoint = true.
Proof.
  split; [reflexivity |].
  apply (proj1 (proj2 equivalent_symmetric_and_coarser_than_equality)).
  reflexivity.
Defined.

(** C10, at concrete inputs: [float[2]] and [float[3]] against
    [float[]], and [float[]] against [float]. *)
Lemma equivalent_not_transitive_witness :
  (equivalent (TypeDesc_array FLOAT 2) (TypeDesc_array FLOAT (-1)) = true /\
   equivalent (TypeDesc_array FLOAT (-1)) (TypeDesc_array FLOAT 3) = true /\
   equivalent (TypeDesc_array FLOAT 2) (TypeDesc_array FLOAT 3) = false) /\
  (equivalent (TypeDesc_array FLOAT (-1)) TypeFloat = false /\
   equivalent TypeFloat (TypeDesc_array FLOAT (-1)) = false).
Proof.
  split.
  - apply (proj1 equivalent_not_transitive);
      try reflexivity; cbn; lia.
  - apply (proj2 (proj2 equivalent_not_transitive)); reflexivity.
Defined.

(** C8, at a concrete input: the scalar type of the colour constant is
    the plain float. *)
Lemma elementtype_scalartype_fields_witness :
  elementtype TypeBox3 = TypeDesc_ctor FLOAT VEC3 BOX 0 /\
  scalartype TypeColor = TypeFloat.
Proof.
  split.
  - apply (proj1 (elementtype_scalartype_fields TypeBox3
                    ltac:(wf_by_computation))).
  - apply (proj2 (elementtype_scalartype_fields TypeColor
                    ltac:(wf_by_computation))).
Defined.

(** C6, at concrete inputs: an unclosed bracket and an unknown word. *)
Lemma fromstring_failure_is_unknown_and_zero_witness :
  fromstring documented_basetype_name TypeFloat "float[3" = (TypeUnknown, 0) /\
  fromstring documented_basetype_name TypeFloat "flot" = (TypeUnknown, 0).
Proof.
  split.
  - apply (fromstring_failure_is_unknown_and_zero
             documented_basetype_name TypeFloat "float[3").
    right. reflexivity.
  - apply (fromstring_failure_is_unknown_and_zero
             documented_basetype_name TypeFloat "flot").
    left. reflexivity.
Defined.

(** The 64-bit exactness at a concrete input: the largest array of
    double 4x4 matrices. *)
Lemma size_exact_with_64_bit_size_t_witness :
  size LP64 Debug (documented_basesize LP64)
       (TypeDesc_agg_array DOUBLE MATRIX44 2147483647)
    = Returns 274877906816.
Proof.
  apply (size_exact_with_64_bit_size_t Debug (documented_basesize LP64)
           (TypeDesc_agg_array DOUBLE MATRIX44 2147483647)).
  - exact (documented_basesize_bound LP64).
  - wf_by_computation.
  - cbn. lia.
Defined.

(** Equality at concrete inputs: the point constant, written twice and
    with another reserved byte. *)
Lemma TypeDesc_eqb_equivalence_witness :
  TypeDesc_eqb TypePoint (TypeDesc_ctor FLOAT VEC3 POINT 0) = true /\
  TypeDesc_eqb TypePoint TypePoint = true.
Proof.
  split.
  - reflexivity.
  - apply (proj1 (proj2 (proj2 TypeDesc_eqb_equivalence))
             TypePoint (TypeDesc_ctor FLOAT VEC3 POINT 0) TypePoint);
      reflexivity.
Defined.

(** * Further properties of the header's code *)

(** ** Sizes *)

Lemma to_size_t_range (m : data_model) (z : Z) :
  0 <= to_size_t m z <= SIZE_MAX m.
Proof.
  unfold to_size_t, SIZE_MAX.
  assert (0 < 2 ^ (8 * sizeof_size_t m)) by (destruct m; reflexivity).
  pose proof (Z.mod_pos_bound z (2 ^ (8 * sizeof_size_t m)) H). lia.
Qed.

Lemma to_size_t_idem (m : data_model) (z : Z) :
  to_size_t m (to_size_t m z) = to_size_t m z.
Proof. apply to_size_t_small, to_size_t_range. Qed.

Lemma to_size_t_one (m : data_model) : to_size_t m 1 = 1.
Proof. destruct m; reflexivity. Qed.

(** The size of a non-array made of one element of size [e]. *)
Lemma size_of_one_element (m : data_model) (e : Z) :
  0 <= e <= SIZE_MAX m ->
  (if sizeof_size_t m >? sizeof_int m
   then Returns (to_size_t m (1 * e))
   else Returns (if to_ulonglong (to_ulonglong 1 * e) <? SIZE_MAX m
                 then to_size_t m (to_ulonglong (to_ulonglong 1 * e))
                 else SIZE_MAX m))
  = Returns e.
Proof.
  intros He. destruct m; cbn [sizeof_size_t sizeof_int Z.gtb Z.compare
                              Pos.compare Pos.compare_cont].
  - rewrite SIZE_MAX_ILP32 in *.
    change (to_ulonglong 1) with 1. rewrite Z.mul_1_l.
    rewrite (to_ulonglong_small e) by lia.
    destruct (Z.ltb_spec e 4294967295).
    + rewrite to_size_t_small by (rewrite SIZE_MAX_ILP32; lia). reflexivity.
    + f_equal. lia.
  - rewrite Z.mul_1_l, to_size_t_small by assumption. reflexivity.
Qed.

(** The size of the element type is the element size, in every build
    and for both widths of [size_t], whatever the base sizes are (as
    long as [basesize()] does not look at the array length). *)
Theorem size_of_elementtype_is_elementsize :
  forall (m : data_model) (b : build_mode) (basesize : TypeDesc -> Z)
         (t : TypeDesc),
    basesize (elementtype t) = basesize t ->
    size m b basesize (elementtype t) = Returns (elementsize m basesize t).
Proof.
  intros m b basesize t Hbs.
  assert (Hes : elementsize m basesize (elementtype t)
                = elementsize m basesize t).
  { unfold elementsize. rewrite Hbs. reflexivity. }
  unfold size. rewrite Hes.
  change (arraylen (elementtype t)) with 0.
  replace (OIIO_DASSERT_MSG b (0 >=? 0)) with (Returns tt)
    by (destruct b; reflexivity).
  cbn [bind]. change (if 0 >? 0 then 0 else 1) with 1.
  rewrite to_size_t_one.
  apply size_of_one_element. unfold elementsize. apply to_size_t_range.
Qed.

(** Whatever the build and the array length, a returned element count
    is at least 1 and at most [INT_MAX], and returned counts of base
    values and byte sizes fit a [size_t]. *)
Theorem query_results_in_range :
  forall (m : data_model) (b : build_mode) (basesize : TypeDesc -> Z)
         (t : TypeDesc),
    TypeDesc_wf t ->
    (forall n, numelements m b t = Returns n -> 1 <= n <= INT_MAX) /\
    (forall n, basevalues m b t = Returns n -> 0 <= n <= SIZE_MAX m) /\
    (forall n, size m b basesize t = Returns n -> 0 <= n <= SIZE_MAX m).
Proof.
  intros m b basesize t (_ & _ & _ & _ & Hlen).
  assert (HI : INT_MAX = 2147483647) by reflexivity.
  rewrite HI in *. split; [| split]; intros n.
  - unfold numelements.
    destruct (OIIO_DASSERT_MSG b (arraylen t >=? 0)); [| discriminate].
    cbn [bind]. intros H. injection H as <-.
    pose proof (SIZE_MAX_lower m).
    destruct (Z.geb_spec (arraylen t) 1).
    + rewrite to_size_t_small; lia.
    + rewrite to_size_t_one. lia.
  - unfold basevalues.
    destruct (numelements m b t); [| discriminate].
    cbn [bind]. intros H. injection H as <-. apply to_size_t_range.
  - unfold size.
    destruct (OIIO_DASSERT_MSG b (arraylen t >=? 0)); [| discriminate].
    cbn [bind]. pose proof (SIZE_MAX_lower m).
    destruct (sizeof_size_t m >? sizeof_int m).
    + intros H'. injection H' as <-. apply to_size_t_range.
    + intros H'. injection H' as <-.
      match goal with |- context [if ?c then _ else _] => destruct c end.
      * apply to_size_t_range.
      * lia.
Qed.

(** Without the assertion (a release build) an unsized array counts as
    a single element: one element, [aggregate] base values, the element
    size in bytes. *)
Theorem release_build_counts_unsized_as_one :
  forall (m : data_model) (basesize : TypeDesc -> Z) (t : TypeDesc),
    TypeDesc_wf t ->
    arraylen t < 0 ->
    numelements m Release t = Returns 1 /\
    basevalues m Release t = Returns (aggregate t) /\
    size m Release basesize t = Returns (elementsize m basesize t).
Proof.
  intros m basesize t (_ & Hagg & _) Hneg.
  assert (Hnum : numelements m Release t = Returns 1).
  { unfold numelements. cbn [OIIO_DASSERT_MSG bind].
    destruct (Z.geb_spec (arraylen t) 1); [lia |].
    rewrite to_size_t_one. reflexivity. }
  split; [exact Hnum | split].
  - unfold basevalues. rewrite Hnum. cbn [bind].
    rewrite Z.mul_1_l, to_size_t_small; [reflexivity |].
    pose proof (SIZE_MAX_lower m). unfold UCHAR_MAX in Hagg. lia.
  - unfold size. cbn [OIIO_DASSERT_MSG bind].
    destruct (Z.gtb_spec (arraylen t) 0); [lia |].
    rewrite to_size_t_one.
    apply size_of_one_element. unfold elementsize. apply to_size_t_range.
Qed.

(** ** Equivalence *)

Lemma is_array_spec (t : TypeDesc) : is_array t = true <-> arraylen t <> 0.
Proof.
  unfold is_array. rewrite negb_true_iff, Z.eqb_neq. tauto.
Qed.

(** Equivalent descriptors are both arrays or both non-arrays, and
    their element types are equivalent too; the member and the friend
    version of [equivalent] agree. *)
Theorem equivalent_respects_arrayness :
  forall a b : TypeDesc,
    equivalent_member a b = equivalent a b /\
    (equivalent a b = true ->
     is_array a = is_array b /\
     equivalent (elementtype a) (elementtype b) = true).
Proof.
  intros a b. split; [reflexivity |].
  intros H. apply equivalent_spec in H. destruct H as (Hb & Ha & Hlen).
  split.
  - apply eq_true_iff_eq. rewrite !is_array_spec. lia.
  - apply equivalent_spec. cbn. tauto.
Qed.

(** Away from unsized arrays [equivalent] is [operator==] with the
    semantic hints ignored, and it is transitive there; two unsized
    arrays are equivalent only with the same (negative) length. *)
Theorem equivalent_on_resolved_lengths :
  (forall a b : TypeDesc,
     0 <= arraylen a -> 0 <= arraylen b ->
     equivalent a b =
     TypeDesc_eqb (with_vecsemantics a NOSEMANTICS)
                  (with_vecsemantics b NOSEMANTICS)) /\
  (forall a b c : TypeDesc,
     0 <= arraylen a -> 0 <= arraylen b -> 0 <= arraylen c ->
     equivalent a b = true -> equivalent b c = true ->
     equivalent a c = true) /\
  (forall a b : TypeDesc,
     arraylen a < 0 -> arraylen b < 0 ->
     equivalent a b = true -> arraylen a = arraylen b).
Proof.
  split; [| split].
  - intros a b Ha Hb. apply eq_true_iff_eq.
    rewrite equivalent_spec, TypeDesc_eqb_spec. cbn. intuition lia.
  - intros a b c Ha Hb Hc. rewrite !equivalent_spec.
    intros (? & ? & ?) (? & ? & ?).
    split; [congruence | split; [congruence | lia]].
  - intros a b Ha Hb. rewrite equivalent_spec. lia.
Qed.

(** ** Shape predicates *)

Ltac compare_fields t b :=
  destruct (Z.eqb_spec (basetype t) b);
  destruct (Z.eqb_spec (aggregate t) SCALAR);
  destruct (Z.eqb_spec (aggregate t) VEC2);
  destruct (Z.eqb_spec (aggregate t) VEC3);
  destruct (Z.eqb_spec (aggregate t) VEC4);
  destruct (Z.eqb_spec (arraylen t) 0);
  destruct (Z.eqb_spec (arraylen t) 2);
  destruct (Z.eqb_spec (vecsemantics t) BOX).

(** For one base kind, a descriptor satisfies at most one of: equal to
    the bare base kind, 2-, 3- or 4-vector, 2D or 3D box. *)
Theorem shape_predicates_exclusive :
  forall (t : TypeDesc) (b : BASETYPE),
    Z.b2z (eqb_basetype t b) + Z.b2z (is_vec2 t b) + Z.b2z (is_vec3 t b)
    + Z.b2z (is_vec4 t b) + Z.b2z (is_box2 t b) + Z.b2z (is_box3 t b) <= 1.
Proof.
  intros t b.
  unfold eqb_basetype, is_vec2, is_vec3, is_vec4, is_box2, is_box3, is_array.
  compare_fields t b; cbn [andb negb Z.b2z];
    unfold SCALAR, VEC2, VEC3, VEC4 in *; lia.
Qed.

(** With the base kind an enumerator (a byte), the vector predicates and
    the comparison with a bare base kind are equivalence with the plain
    descriptor of that shape: the semantic hint is not looked at. *)
Theorem shape_predicates_are_equivalence :
  forall (t : TypeDesc) (b : BASETYPE),
    0 <= b <= UCHAR_MAX ->
    eqb_basetype t b = equivalent t (TypeDesc_of_base b) /\
    basetype_eqb b t = equivalent t (TypeDesc_of_base b) /\
    is_vec2 t b = equivalent t (TypeDesc_ctor b VEC2 NOSEMANTICS 0) /\
    is_vec3 t b = equivalent t (TypeDesc_ctor b VEC3 NOSEMANTICS 0) /\
    is_vec4 t b = equivalent t (TypeDesc_ctor b VEC4 NOSEMANTICS 0).
Proof.
  intros t b Hb.
  unfold eqb_basetype, basetype_eqb, is_vec2, is_vec3, is_vec4, equivalent,
    is_array, is_unsized_array, is_sized_array, TypeDesc_of_base,
    TypeDesc_ctor.
  cbn [basetype aggregate arraylen].
  rewrite (to_uchar_small b) by assumption.
  change (to_uchar SCALAR) with SCALAR. change (to_uchar VEC2) with VEC2.
  change (to_uchar VEC3) with VEC3. change (to_uchar VEC4) with VEC4.
  change (0 >? 0) with false. change (0 <? 0) with false.
  rewrite !andb_false_r, !orb_false_r.
  destruct (basetype t =? b), (aggregate t =? SCALAR), (aggregate t =? VEC2),
    (aggregate t =? VEC3), (aggregate t =? VEC4), (arraylen t =? 0);
    repeat split.
Qed.

(** Comparing with the descriptor built from a base kind is stricter
    than comparing with the base kind itself: it also requires the
    semantic hint to be [NOSEMANTICS]. *)
Theorem eqb_basetype_versus_descriptor :
  forall (t : TypeDesc) (b : BASETYPE),
    0 <= b <= UCHAR_MAX ->
    TypeDesc_eqb t (TypeDesc_of_base b) =
    eqb_basetype t b && (vecsemantics t =? NOSEMANTICS).
Proof.
  intros t b Hb.
  unfold TypeDesc_eqb, eqb_basetype, is_array, TypeDesc_of_base,
    TypeDesc_ctor.
  cbn [basetype aggregate arraylen vecsemantics].
  rewrite (to_uchar_small b) by assumption.
  change (to_uchar SCALAR) with SCALAR.
  change (to_uchar NOSEMANTICS) with NOSEMANTICS.
  destruct (basetype t =? b), (aggregate t =? SCALAR),
    (vecsemantics t =? NOSEMANTICS), (arraylen t =? 0); reflexivity.
Qed.

(** The shape predicates fix the counts: a scalar or vector of [N]
    components is one element of [N] base values, a box is two elements
    with four (2D) or six (3D) base values; no assertion fires. *)
Theorem shape_predicates_fix_counts :
  forall (m : data_model) (bm : build_mode) (t : TypeDesc) (b : BASETYPE),
    (eqb_basetype t b = true ->
     numelements m bm t = Returns 1 /\ basevalues m bm t = Returns 1) /\
    (is_vec2 t b = true ->
     numelements m bm t = Returns 1 /\ basevalues m bm t = Returns 2) /\
    (is_vec3 t b = true ->
     numelements m bm t = Returns 1 /\ basevalues m bm t = Returns 3) /\
    (is_vec4 t b = true ->
     numelements m bm t = Returns 1 /\ basevalues m bm t = Returns 4) /\
    (is_box2 t b = true ->
     numelements m bm t = Returns 2 /\ basevalues m bm t = Returns 4) /\
    (is_box3 t b = true ->
     numelements m bm t = Returns 2 /\ basevalues m bm t = Returns 6).
Proof.
  intros m bm t b.
  unfold eqb_basetype, is_vec2, is_vec3, is_vec4, is_box2, is_box3, is_array,
    basevalues, numelements.
  rewrite !andb_true_iff, !negb_true_iff, !negb_false_iff, !Z.eqb_eq.
  repeat split;
    match goal with H : _ /\ _ |- _ => decompose [and] H; clear H end;
    repeat match goal with H : _ t = _ |- _ => rewrite H end;
    destruct m, bm; reflexivity.
Qed.

(** ** Projections *)

Lemma elementtype_wf (t : TypeDesc) : TypeDesc_wf t -> TypeDesc_wf (elementtype t).
Proof.
  unfold TypeDesc_wf, INT_MIN, INT_MAX. cbn. lia.
Qed.

Lemma scalartype_wf (t : TypeDesc) : TypeDesc_wf t -> TypeDesc_wf (scalartype t).
Proof.
  intros (Hb & _). unfold TypeDesc_wf, scalartype, TypeDesc_of_base,
    TypeDesc_ctor. cbn [basetype aggregate vecsemantics reserved arraylen].
  rewrite (to_uchar_small (basetype t)) by assumption.
  unfold UCHAR_MAX, INT_MIN, INT_MAX in *. cbn. lia.
Qed.

(** The projections compose as expected: each is idempotent,
    [scalartype] absorbs [elementtype] on either side, the element type
    is never an array, the scalar type equals the bare base kind, and
    both keep the fields within their ranges. *)
Theorem projections_compose :
  forall t : TypeDesc,
    TypeDesc_wf t ->
    elementtype (elementtype t) = elementtype t /\
    scalartype (scalartype t) = scalartype t /\
    scalartype (elementtype t) = scalartype t /\
    elementtype (scalartype t) = scalartype t /\
    is_array (elementtype t) = false /\
    eqb_basetype (scalartype t) (basetype t) = true /\
    TypeDesc_wf (elementtype t) /\ TypeDesc_wf (scalartype t).
Proof.
  intros t Hwf.
  assert (Hs : scalartype t =
               {| basetype := basetype t; aggregate := SCALAR;
                  vecsemantics := NOSEMANTICS; reserved := 0;
                  arraylen := 0 |}).
  { destruct Hwf as (Hb & _). unfold scalartype, TypeDesc_of_base,
      TypeDesc_ctor. rewrite (to_uchar_small (basetype t)) by assumption.
    reflexivity. }
  refine (conj _ (conj _ (conj _ (conj _ (conj _ (conj _ (conj _ _))))))).
  - reflexivity.
  - unfold scalartype at 1. rewrite Hs. cbn [basetype]. rewrite <- Hs.
    reflexivity.
  - reflexivity.
  - rewrite Hs. reflexivity.
  - reflexivity.
  - rewrite Hs. unfold eqb_basetype, is_array. cbn.
    rewrite Z.eqb_refl. reflexivity.
  - apply elementtype_wf, Hwf.
  - apply scalartype_wf, Hwf.
Qed.

(** ** The format-specification parser *)

(** [parse] accepts exactly the specifications that are empty or [s] up
    to the end or the closing brace, and returns the iterator at that
    end or brace (so at distance 0 or 1 from the start); every other
    specification raises [format_error]. *)
Theorem formatter_parse_accepts :
  forall ctx : string,
    (formatter_parse ctx = ParsedUpTo 0 <->
     ctx = EmptyString \/ exists r, ctx = String "}" r) /\
    (formatter_parse ctx = ParsedUpTo 1 <->
     ctx = String "s" EmptyString \/
     exists r, ctx = String "s" (String "}" r)) /\
    (forall n, formatter_parse ctx = ParsedUpTo n -> (n <= 1)%nat) /\
    (formatter_parse ctx = Throws_format_error <->
     forall n, formatter_parse ctx <> ParsedUpTo n).
Proof.
  intros ctx.
  unfold formatter_parse.
  destruct ctx as [| c r]; cbn.
  - repeat split; try discriminate; try lia.
    + intros _. left. reflexivity.
    + intros [H | [r H]]; discriminate H.
    + intros n H. injection H as <-. lia.
    + intros H. exfalso. exact (H 0%nat eq_refl).
  - destruct (Ascii.eqb_spec c "s") as [-> | Hc]; cbn.
    + (* the specification starts with s *)
      destruct r as [| c2 r2]; cbn.
      * repeat split; try discriminate; try lia.
        -- intros [H | [r H]]; discriminate H.
        -- intros _. left. reflexivity.
        -- intros n H. injection H as <-. lia.
        -- intros H. exfalso. exact (H 1%nat eq_refl).
      * destruct (Ascii.eqb_spec c2 "}") as [-> | Hc2].
        -- repeat split; try discriminate; try lia.
           ++ intros [H | [r H]]; discriminate H.
           ++ intros _. right. exists r2. reflexivity.
           ++ intros n H. injection H as <-. lia.
           ++ intros H. exfalso. exact (H 1%nat eq_refl).
        -- repeat split; try discriminate; try lia.
           ++ intros [H | [r H]]; discriminate H.
           ++ intros [H | [r H]]; congruence.
    + (* the specification does not start with s *)
      destruct (Ascii.eqb_spec c "}") as [-> | Hc2].
      * repeat split; try discriminate; try lia.
        -- intros _. right. exists r. reflexivity.
        -- intros [H | [r' H]]; discriminate H.
        -- intros n H. injection H as <-. lia.
        -- intros H. exfalso. exact (H 0%nat eq_refl).
      * repeat split; try discriminate; try lia.
        -- intros [H | [r' H]]; congruence.
        -- intros [H | [r' H]]; congruence.
Qed.

(** ** C types and base kinds *)

(** On the kinds that have a C type, [CType] and [BaseTypeFromC] are
    inverse to each other: the C type of a base kind other than
    [USTRINGHASH] maps back to that kind (and to its plain descriptor),
    and a C type whose base kind is neither [STRING] nor [PTR] is the C
    type of that kind. *)
Theorem CType_BaseTypeFromC_inverse :
  forall (half_defined : bool) (b : BASETYPE) (T : ctype),
    (CType half_defined b = Some T -> b <> USTRINGHASH ->
     BaseTypeFromC half_defined T = Some b /\
     TypeDescFromC_default half_defined T = Some (TypeDesc_of_base b)) /\
    (BaseTypeFromC half_defined T = Some b -> b <> STRING -> b <> PTR ->
     CType half_defined b = Some T).
Proof.
  intros half_defined b T. split.
  - unfold CType, TypeDescFromC_default.
    repeat match goal with
           | |- context [if b =? ?k then _ else _] =>
               destruct (Z.eqb_spec b k) as [-> | ?]
           end;
      destruct half_defined; intros H Hne;
      try discriminate H; try (injection H as <-; split; reflexivity);
      exfalso; apply Hne; reflexivity.
  - destruct T; cbn; try destruct half_defined;
      try (destruct (is_c_char T));
      intros H Hs Hp; try discriminate H; injection H as <-;
      try reflexivity; contradiction.
Qed.

(** ** The well-known constants *)

(** No well-known constant is an unsized array and all keep their
    fields in range, so the element count of each is returned, without
    a failed assertion, in every build. *)
Theorem well_known_types_are_sized :
  forall t : TypeDesc,
    In t well_known_types ->
    TypeDesc_wf t /\ 0 <= arraylen t /\
    forall (m : data_model) (b : build_mode),
      numelements m b t = Returns (Z.max (arraylen t) 1).
Proof.
  assert (H : Forall (fun t => TypeDesc_wf t /\ 0 <= arraylen t)
                     well_known_types).
  { unfold well_known_types.
    repeat (apply Forall_cons; [split; [wf_by_computation | cbn; lia] |]).
    apply Forall_nil. }
  intros t Hin. rewrite Forall_forall in H.
  destruct (H t Hin) as [Hwf Hnn].
  split; [exact Hwf | split; [exact Hnn |]].
  intros m b. apply numelements_returns; assumption.
Qed.

(** ** Worked inputs for the further properties *)

(** One element of a 3D box is a 3-vector of floats, twelve bytes. *)
Lemma size_of_elementtype_is_elementsize_witness :
  size ILP32 Debug (documented_basesize ILP32) (elementtype TypeBox3)
  = Returns 12.
Proof.
  apply (size_of_elementtype_is_elementsize ILP32 Debug
           (documented_basesize ILP32) TypeBox3).
  reflexivity.
Defined.

(** The key code has seven elements, which lies between 1 and
    [INT_MAX]. *)
Lemma query_results_in_range_witness : 1 <= 7 <= INT_MAX.
Proof.
  apply (proj1 (query_results_in_range LP64 Debug (documented_basesize LP64)
                  TypeKeyCode ltac:(wf_by_computation))).
  reflexivity.
Defined.

(** A release build takes the unsized array of points for one point. *)
Lemma release_build_counts_unsized_as_one_witness :
  numelements LP64 Release (TypeDesc_ctor FLOAT VEC3 POINT (-1)) = Returns 1 /\
  basevalues LP64 Release (TypeDesc_ctor FLOAT VEC3 POINT (-1)) = Returns 3 /\
  size LP64 Release (documented_basesize LP64)
       (TypeDesc_ctor FLOAT VEC3 POINT (-1)) = Returns 12.
Proof.
  apply (release_build_counts_unsized_as_one LP64 (documented_basesize LP64)
           (TypeDesc_ctor FLOAT VEC3 POINT (-1))).
  - wf_by_computation.
  - cbn. lia.
Defined.

(** [float[2]] and [float[]] are equivalent: both are arrays. *)
Lemma equivalent_respects_arrayness_witness :
  is_array (TypeDesc_array FLOAT 2) = is_array (TypeDesc_array FLOAT (-1)).
Proof.
  apply (proj2 (equivalent_respects_arrayness (TypeDesc_array FLOAT 2)
                  (TypeDesc_array FLOAT (-1)))).
  reflexivity.
Defined.

(** Colour, point and normal: equivalent pairwise, by transitivity. *)
Lemma equivalent_on_resolved_lengths_witness :
  equivalent TypeColor TypeNormal = true.
Proof.
  apply (proj1 (proj2 equivalent_on_resolved_lengths)
           TypeColor TypePoint TypeNormal);
    try reflexivity; cbn; lia.
Defined.

(** The colour constant is a 3-vector of floats, whatever its hint. *)
Lemma shape_predicates_are_equivalence_witness :
  is_vec3 TypeColor FLOAT =
  equivalent TypeColor (TypeDesc_ctor FLOAT VEC3 NOSEMANTICS 0).
Proof.
  apply (shape_predicates_are_equivalence TypeColor FLOAT).
  unfold FLOAT, UCHAR_MAX. lia.
Defined.

(** The time code without its array length equals [UINT] but not the
    descriptor [TypeUInt], because of its hint. *)
Lemma eqb_basetype_versus_descriptor_witness :
  TypeDesc_eqb (elementtype TypeTimeCode) (TypeDesc_of_base UINT) =
  eqb_basetype (elementtype TypeTimeCode) UINT
  && (vecsemantics (elementtype TypeTimeCode) =? NOSEMANTICS).
Proof.
  apply (eqb_basetype_versus_descriptor (elementtype TypeTimeCode) UINT).
  unfold UINT, UINT32, UCHAR_MAX. lia.
Defined.

(** The 3D box of ints: two elements, six base values. *)
Lemma shape_predicates_fix_counts_witness :
  numelements ILP32 Debug TypeBox3i = Returns 2 /\
  basevalues ILP32 Debug TypeBox3i = Returns 6.
Proof.
  apply (proj2 (proj2 (proj2 (proj2 (proj2
           (shape_predicates_fix_counts ILP32 Debug TypeBox3i INT)))))).
  reflexivity.
Defined.

(** The scalar type of the element type of a box is the plain float. *)
Lemma projections_compose_witness :
  scalartype (elementtype TypeBox2) = scalartype TypeBox2.
Proof.
  apply (projections_compose TypeBox2). wf_by_computation.
Defined.

(** The specification [s}] is accepted up to its brace. *)
Lemma formatter_parse_accepts_witness :
  formatter_parse "s}" = ParsedUpTo 1.
Proof.
  apply (proj1 (proj2 (formatter_parse_accepts "s}"))).
  right. exists EmptyString. reflexivity.
Defined.

(** [unsigned short] is the C type of [UINT16] and maps back to it. *)
Lemma CType_BaseTypeFromC_inverse_witness :
  BaseTypeFromC false c_unsigned_short = Some UINT16 /\
  TypeDescFromC_default false c_unsigned_short = Some TypeUInt16.
Proof.
  apply (proj1 (CType_BaseTypeFromC_inverse false UINT16 c_unsigned_short)).
  - reflexivity.
  - discriminate.
Defined.

(** The key code is a well-known constant of seven elements. *)
Lemma well_known_types_are_sized_witness :
  numelements ILP32 Debug TypeKeyCode = Returns 7.
Proof.
  apply (well_known_types_are_sized TypeKeyCode).
  unfold well_known_types.
  repeat (try (left; reflexivity); right).
Defined.
